(** * pkg/websocket: the dispatch server and its connection session

    A shallow embedding of the server of package [websocket]: the
    [Server] struct, [NewServer], [RegisterService] and the read /
    dispatch / respond loop [handleConnection].

    The session talks to a websocket connection and runs until the
    transport fails, so it is modelled as an interaction tree whose events
    are the calls the loop makes on its environment.  The registry is a
    Go map, modelled as a [gmap]; a nil map is told apart from an empty
    one, because Go allows reading the former and panics on writing it.

    The file ends with the mock docker client of package [testutils], a
    struct of three such maps and three flags. *)

From Stdlib Require Import ZArith String List.
From Stdlib Require Import Strings.Byte.
From stdpp Require Import base decidable countable strings gmap.
From ITree Require Import ITree ITreeFacts Events.State Events.StateFacts.
Local Open Scope Z_scope.

(** Sequencing of session steps.  ITree's own notations sit at levels that
    stdpp has taken, so the two forms used here are declared afresh. *)
Declare Scope session_scope.
Delimit Scope session_scope with session.
Notation "x <- t ;; k" := (ITree.bind t (fun x => k))
  (at level 100, t at next level, k at level 200, right associativity,
   only parsing) : session_scope.
Notation "t ;;; k" := (ITree.bind t (fun _ => k))
  (at level 100, k at level 200, right associativity,
   only parsing) : session_scope.
Local Open Scope session_scope.

(** ** Go values *)

(** [[]byte]. *)
Definition bytes := list byte.

(** [[3]byte], the type of service and method identifiers. *)
Definition ProtocolID : Type := byte * byte * byte.

#[global] Instance byte_eq_dec : EqDecision byte := Byte.byte_eq_dec.

#[global] Program Instance byte_countable : Countable byte :=
  inj_countable Byte.to_N Byte.of_N _.
Next Obligation. exact Byte.of_to_N. Qed.

(** The [error] interface has the single method [Error() string]; an
    error value is modelled by the message that method renders. *)
Record error : Type := mkError { Error : string }.

(** [(T, error)]: the value when [err == nil], the error otherwise.  The
    code below never looks at the value returned next to a non-nil error;
    a nil value next to a nil error is not modelled. *)
Inductive result (A : Type) : Type :=
| Ok (a : A)
| Err (err : error).
Arguments Ok {A} a.
Arguments Err {A} err.

(** [[]byte(err.Error())]. *)
Definition raw (err : error) : bytes := list_byte_of_string (Error err).

(** The verb [%s] applied to a byte array: the bytes themselves. *)
Definition fmt_s (id : ProtocolID) : string :=
  let '(b0, b1, b2) := id in string_of_list_byte (b0 :: b1 :: b2 :: nil).

(** How a call ends: it returns, or it panics with a runtime error. *)
Inductive outcome (A : Type) : Type :=
| Returns (a : A)
| Panics (msg : string).
Arguments Returns {A} a.
Arguments Panics {A} msg.

Section Websocket.

(** [interface{}]: decoded payloads and handler results. *)
Context {Data : Type}.

(** [log.Logger] of go-kit. *)
Context {Logger : Type}.

(** A handler, as line 85 calls it: [res, err := handler(data)]. *)
Definition Handler : Type := Data -> result Data.

(** [ProtocolHandler] is an interface defining the needed functionality to
    Decode and Encode messages.  An interface value is modelled by its two
    methods, so it is never nil. *)
Record ProtocolHandler : Type := mkProtocolHandler {
  Decode : bytes -> result (ProtocolID * ProtocolID * Data);
  Encode : ProtocolID -> ProtocolID -> Data -> result bytes;
}.

(** Modelled from the spec: the struct [ServiceDescription] is declared in
    a file of the package that is not among the sources; the server only
    reads its field [protocolName], the key of the services map.  The spec's data model: a
    ServiceDescription "owns a ServiceIdentifier and a mapping from
    MethodIdentifier to a handler callable". *)
Record ServiceDescription : Type := mkServiceDescription {
  protocolName : ProtocolID;
  endpoints : gmap ProtocolID Handler;
}.

(** [Server] is a struct type containing every value needed for a websocket
    server.  [services] is [None] for the nil map. *)
Record Server : Type := mkServer {
  protocolHandler : ProtocolHandler;
  logger : Logger;
  services : option (gmap ProtocolID ServiceDescription);
}.

(** [NewServer] returns a pointer to a Server instance.  The composite
    literal names two fields; [services] keeps its zero value, the nil
    map. *)
Definition NewServer (ph : ProtocolHandler) (logger : Logger) : Server :=
  {| protocolHandler := ph; logger := logger; services := None |}.

(** [s.services[id]] read as a pointer: nil when the key is absent, and
    also when the map itself is nil. *)
Definition service (s : Server) (id : ProtocolID) : option ServiceDescription :=
  match services s with
  | Some m => m !! id
  | None => None
  end.

(** [RegisterService] adds the given ServiceDescription to the Server's
    services map.  The receiver is a pointer, so the call returns the
    struct it leaves behind next to its [error]; [sd] is a pointer that is
    not nil.  Line 26 reads the map, which Go allows on a nil map; the
    assignment of line 31 panics when the map is nil. *)
Definition RegisterService (s : Server) (sd : ServiceDescription)
  : outcome (Server * option error) :=
  let exist := bool_decide (is_Some (service s (protocolName sd))) in
  if exist then
    Returns (s, Some (mkError ("Service Endpoint " ++ fmt_s (protocolName sd)
                                 ++ " already exists")))
  else
    match services s with
    | None => Panics "assignment to entry in nil map"
    | Some m =>
        Returns ({| protocolHandler := protocolHandler s;
                    logger := logger s;
                    services := Some (<[protocolName sd := sd]> m) |}, None)
    end.

(** Modelled from the spec: the errors of a failed resolution.  The spec
    names them and leaves their text open; the messages are the names. *)
Definition UnknownServiceError : error := mkError "UnknownServiceError".
Definition UnknownMethodError : error := mkError "UnknownMethodError".

(** Modelled from the spec: the method [EndpointHandler] of
    [*ServiceDescription], which line 74 calls on [s.services[srv]], is not
    among the sources.  The spec: resolution "returns the handler callable
    if both the service and method are found. Fails with
    UnknownServiceError if the service identifier is absent, or
    UnknownMethodError if the service exists but the method identifier is
    not registered under it."  The receiver is the pointer the map lookup
    gave, nil for an absent service. *)
Definition EndpointHandler (sd : option ServiceDescription) (me : ProtocolID)
  : result Handler :=
  match sd with
  | None => Err UnknownServiceError
  | Some d =>
      match endpoints d !! me with
      | Some handler => Ok handler
      | None => Err UnknownMethodError
      end
  end.

(** ** The session *)

(** What the methods of [*Server] call: the three methods of
    [*websocket.Conn] that [handleConnection] uses, the codec, the resolved
    handler and the logger.  [Load] reads the struct behind the receiver
    [s], which the goroutines share, and [Store] writes it, as the
    assignment of line 31 does. *)
Variant sessionE : Type -> Type :=
| ReadMessage : sessionE (result (Z * bytes))
| WriteMessage (messageType : Z) (data : bytes) : sessionE (option error)
| Close : sessionE unit
| Load : sessionE Server
| Store (s : Server) : sessionE unit
| DecodeCall (ph : ProtocolHandler) (message : bytes)
    : sessionE (result (ProtocolID * ProtocolID * Data))
| HandlerCall (handler : Handler) (data : Data) : sessionE (result Data)
| EncodeCall (ph : ProtocolHandler) (service method : ProtocolID) (data : Data)
    : sessionE (result bytes)
| Log (l : Logger) (keyvals : error) : sessionE unit.

(** How one pass of the loop body ends: [continue] (or falling off the end
    of the body), or [return]. *)
Definition continue : unit + unit := inl tt.
Definition returned : unit + unit := inr tt.

(** The five places that write to the connection (lines 65-71, 76-82,
    87-93, 98-104 and 107-112) are the same statement sequence: write; on
    failure log, close and return; otherwise go round again. *)
Definition send (messageType : Z) (data : bytes) : itree sessionE (unit + unit) :=
  err <- ITree.trigger (WriteMessage messageType data) ;;
  match err with
  | Some err =>
      s <- ITree.trigger Load ;;
      ITree.trigger (Log (logger s) err) ;;;
      ITree.trigger Close ;;;
      Ret returned
  | None => Ret continue
  end.

(** Lines 63-112: what the loop does with a message it has read. *)
Definition dispatch (messageType : Z) (request : bytes)
  : itree sessionE (unit + unit) :=
  s <- ITree.trigger Load ;;
  r <- ITree.trigger (DecodeCall (protocolHandler s) request) ;;
  match r with
  | Err err => send messageType (raw err)
  | Ok (srv, me, data) =>
      s <- ITree.trigger Load ;;
      match EndpointHandler (service s srv) me with
      | Err err => send messageType (raw err)
      | Ok handler =>
          r <- ITree.trigger (HandlerCall handler data) ;;
          match r with
          | Err err => send messageType (raw err)
          | Ok res =>
              s <- ITree.trigger Load ;;
              r <- ITree.trigger (EncodeCall (protocolHandler s) srv me res) ;;
              match r with
              | Err err => send messageType (raw err)
              | Ok response => send messageType response
              end
          end
      end
  end.

(** Lines 57-112: the body of the [for] loop. *)
Definition iteration : itree sessionE (unit + unit) :=
  r <- ITree.trigger ReadMessage ;;
  match r with
  | Err _ => ITree.trigger Close ;;; Ret returned
  | Ok (messageType, request) => dispatch messageType request
  end.

(** [for { ... }]: the body again after [continue], until it returns. *)
Definition handleConnection : itree sessionE unit :=
  ITree.iter (fun _ : unit => iteration) tt.

(** ** The environment of a session *)

(** One entry of the record of calls a session has made.  Calls on the
    connection carry what the transport answered. *)
Inductive Call : Type :=
| Read (r : result (Z * bytes))
| Decoded (message : bytes)
| Invoked (handler : Handler) (data : Data)
| Encoded (service method : ProtocolID) (data : Data)
| Wrote (messageType : Z) (data : bytes) (err : option error)
| Logged (l : Logger) (keyvals : error)
| Closed.

(** What a session runs against: the server struct its receiver points
    to, and the connection, given by what the successive reads will return,
    what the successive writes will return, and the calls made so far,
    oldest first.  A read past the end of [incoming] fails; a write past
    the end of [faults] succeeds. *)
Record World : Type := mkWorld {
  server : Server;
  incoming : list (result (Z * bytes));
  faults : list (option error);
  trace : list Call;
}.

(** The error of a read on a connection whose peer is gone. *)
Definition io_EOF : error := mkError "EOF".

(** The calls made on the connection itself. *)
Definition on_transport (c : Call) : bool :=
  match c with
  | Read _ | Wrote _ _ _ | Closed => true
  | _ => false
  end.

(** Entering a call in the record. *)
Definition traced (c : Call) (w : World) : World :=
  {| server := server w; incoming := incoming w; faults := faults w;
     trace := trace w ++ c :: nil |}.

(** What each call does to the environment, and what it returns.  The
    codec and the handlers are functions of their arguments. *)
Definition perform {X : Type} (e : sessionE X) (w : World) : World * X :=
  match e in sessionE X return World * X with
  | ReadMessage =>
      let r := hd (Err io_EOF) (incoming w) in
      (traced (Read r)
         {| server := server w; incoming := tl (incoming w);
            faults := faults w; trace := trace w |}, r)
  | WriteMessage messageType data =>
      let err := hd None (faults w) in
      (traced (Wrote messageType data err)
         {| server := server w; incoming := incoming w;
            faults := tl (faults w); trace := trace w |}, err)
  | Close => (traced Closed w, tt)
  | Load => (w, server w)
  | Store s =>
      ({| server := s; incoming := incoming w; faults := faults w;
          trace := trace w |}, tt)
  | DecodeCall ph message => (traced (Decoded message) w, Decode ph message)
  | HandlerCall handler data => (traced (Invoked handler data) w, handler data)
  | EncodeCall ph srv me data =>
      (traced (Encoded srv me data) w, Encode ph srv me data)
  | Log l err => (traced (Logged l err) w, tt)
  end.

Definition environment : sessionE ~> Monads.stateT World (itree void1) :=
  fun X e w => Ret (perform e w).

(** A session run against a connection. *)
Definition run {R : Type} (t : itree sessionE R) (w : World)
  : itree void1 (World * R) :=
  interp_state environment t w.

(** Adding calls to the record of a connection. *)
Definition logged (calls : list Call) (w : World) : World :=
  mkWorld (server w) (incoming w) (faults w) (trace w ++ calls).

(** A frame the session may send: the text of an error, or what [Encode]
    returned. *)
Definition is_reply (s : Server) (payload : bytes) : Prop :=
  (exists err : error, payload = raw err) \/
  (exists (srv me : ProtocolID) (res : Data),
      Encode (protocolHandler s) srv me res = Ok payload).

(** [go s.handleConnection(conn)], against [w]. *)
Definition session (w : World) : itree void1 (World * unit) :=
  run handleConnection w.

(** What a run returns, when it returns within [fuel] silent steps. *)
Fixpoint result_within {R : Type} (fuel : nat) (t : itree void1 R) : option R :=
  match fuel with
  | O => None
  | S fuel' =>
      match observe t with
      | RetF r => Some r
      | TauF t' => result_within fuel' t'
      | VisF e _ => match e with end
      end
  end.

(** ** Registration on the shared struct *)

(** [RegisterService] (lines 25-33) as a call on the struct the sessions
    share: the same statements as the function above, with the receiver
    read through [Load] and the assignment of line 31 made through
    [Store]. *)
Definition RegisterService_call (sd : ServiceDescription)
  : itree sessionE (outcome (option error)) :=
  s <- ITree.trigger Load ;;
  let exist := bool_decide (is_Some (service s (protocolName sd))) in
  if exist then
    Ret (Returns (Some (mkError ("Service Endpoint " ++ fmt_s (protocolName sd)
                                   ++ " already exists"))))
  else
    s <- ITree.trigger Load ;;
    match services s with
    | None => Ret (Panics "assignment to entry in nil map")
    | Some m =>
        ITree.trigger
          (Store {| protocolHandler := protocolHandler s;
                    logger := logger s;
                    services := Some (<[protocolName sd := sd]> m) |}) ;;;
        Ret (Returns None)
    end.

(** ** The session, read as a whole *)

(** The frame the loop body sends back for [request]: lines 63-107 read as
    a function of the server and the request. *)
Definition answer (s : Server) (request : bytes) : bytes :=
  match Decode (protocolHandler s) request with
  | Err err => raw err
  | Ok (srv, me, data) =>
      match EndpointHandler (service s srv) me with
      | Err err => raw err
      | Ok handler =>
          match handler data with
          | Err err => raw err
          | Ok res =>
              match Encode (protocolHandler s) srv me res with
              | Err err => raw err
              | Ok response => response
              end
          end
      end
  end.

(** The calls on the codec and on a handler. *)
Definition internal (c : Call) : bool :=
  match c with
  | Decoded _ | Invoked _ _ | Encoded _ _ _ => true
  | _ => false
  end.

(** The frames the transport took, oldest first. *)
Definition written (calls : list Call) : list (Z * bytes) :=
  omap (fun c => match c with
                 | Wrote messageType data None => Some (messageType, data)
                 | _ => None
                 end) calls.

(** The messages a peer gets through before its first failed read. *)
Fixpoint requests (msgs : list (result (Z * bytes))) : list (Z * bytes) :=
  match msgs with
  | Ok m :: rest => m :: requests rest
  | _ => nil
  end.

Definition is_write (c : Call) : bool :=
  match c with Wrote _ _ _ => true | _ => false end.

Definition is_read_ok (c : Call) : bool :=
  match c with Read (Ok _) => true | _ => false end.

(** The shape of the calls of a whole session of server [s], given what
    the reads and the writes return: one block per message read, made of
    the read, calls on the codec and handler, and one write of the answer;
    the block of a refused write ends with the log entry and the close; a
    failed read is followed by the close alone. *)
Inductive session_calls (s : Server)
  : list (result (Z * bytes)) -> list (option error) -> list Call -> Prop :=
| calls_hangup (fs : list (option error)) :
    session_calls s nil fs (Read (Err io_EOF) :: Closed :: nil)
| calls_read_failed (err : error) (rest : list (result (Z * bytes)))
    (fs : list (option error)) :
    session_calls s (Err err :: rest) fs (Read (Err err) :: Closed :: nil)
| calls_write_failed (messageType : Z) (request : bytes)
    (rest : list (result (Z * bytes))) (fs : list (option error))
    (inner : list Call) (err : error) :
    Forall (fun c => internal c = true) inner ->
    hd None fs = Some err ->
    session_calls s (Ok (messageType, request) :: rest) fs
      (Read (Ok (messageType, request)) :: inner
         ++ Wrote messageType (answer s request) (Some err)
         :: Logged (logger s) err :: Closed :: nil)
| calls_answered (messageType : Z) (request : bytes)
    (rest : list (result (Z * bytes))) (fs : list (option error))
    (inner later : list Call) :
    Forall (fun c => internal c = true) inner ->
    hd None fs = None ->
    session_calls s rest (tl fs) later ->
    session_calls s (Ok (messageType, request) :: rest) fs
      (Read (Ok (messageType, request)) :: inner
         ++ Wrote messageType (answer s request) None :: later).

(** The registry's keys are the identifiers of the descriptions they map
    to. *)
Definition keyed (s : Server) : Prop :=
  forall (id : ProtocolID) (sd : ServiceDescription),
    service s id = Some sd -> protocolName sd = id.

End Websocket.

(** ** A scenario to run the session on

    The spec's concrete scenario: service [[0x01,0x00,0x00]] with method
    [[0x00,0x00,0x01]] mapped to a handler that echoes its input.  Payloads
    are byte strings; the codec is a stand-in that frames a message as the
    three bytes of the service, the three bytes of the method and the
    payload, and refuses to encode an empty payload. *)
Module Scenario.

Definition id_bytes (id : ProtocolID) : bytes :=
  let '(b0, b1, b2) := id in b0 :: b1 :: b2 :: nil.

Definition frames : @ProtocolHandler bytes := {|
  Decode message :=
    match message with
    | s0 :: s1 :: s2 :: m0 :: m1 :: m2 :: payload =>
        Ok ((s0, s1, s2), (m0, m1, m2), payload)
    | _ => Err (mkError "short frame")
    end;
  Encode srv me data :=
    match data with
    | nil => Err (mkError "nothing to encode")
    | _ => Ok (id_bytes srv ++ id_bytes me ++ data)
    end;
|}.

Definition echo : @Handler bytes := fun data => Ok data.
Definition refuse : @Handler bytes := fun _ => Err (mkError "refused").

Definition svc : ProtocolID := (x01, x00, x00).
Definition other_svc : ProtocolID := (x02, x00, x00).
Definition echo_method : ProtocolID := (x00, x00, x01).
Definition refuse_method : ProtocolID := (x00, x00, x02).

Definition description : @ServiceDescription bytes := {|
  protocolName := svc;
  endpoints := <[echo_method := echo]> (<[refuse_method := refuse]> ∅);
|}.

(** A server whose map was made, before and after the registration. *)
Definition fresh : @Server bytes unit :=
  {| protocolHandler := frames; logger := tt; services := Some ∅ |}.

Definition registered : @Server bytes unit :=
  {| protocolHandler := frames; logger := tt;
     services := Some (<[svc := description]> ∅) |}.

Definition ping : bytes := list_byte_of_string "ping".

Definition message (srv me : ProtocolID) (payload : bytes) : bytes :=
  id_bytes srv ++ id_bytes me ++ payload.

(** A connection on which the peer sends [msgs] as text messages (type 1)
    and then hangs up, and whose writes answer [faults]. *)
Definition connection (msgs : list bytes) (faults : list (option error))
  : @World bytes unit :=
  {| server := registered;
     incoming := List.map (fun m => Ok (1, m)) msgs;
     faults := faults;
     trace := nil |}.

End Scenario.

(** ** pkg/testutils: the mock docker client

    [MockDCli] simulates a docker client for testing purposes: three Go
    maps from names to booleans and three flags.  The maps are [None] when
    nil, as in the zero value of the struct.  The methods have pointer
    receivers, so each returns the struct it leaves behind next to its
    results.  The parameters a method never reads ([ctx], the option and
    configuration structs, the signal) are left out; of
    [types.ExecConfig] the model keeps the field [Cmd], and of
    [container.ContainerCreateCreatedBody] the field [ID]. *)
Module Mock.

(** A Go [map[string]bool], nil or made. *)
Definition boolmap : Type := option (gmap string bool).

(** [m[k]]: [false] for a missing key and on a nil map. *)
Definition get (m : boolmap) (k : string) : bool :=
  match m with
  | Some g => default false (g !! k)
  | None => false
  end.

(** [m[k] = v]: panics on a nil map. *)
Definition put (m : boolmap) (k : string) (v : bool) : outcome boolmap :=
  match m with
  | Some g => Returns (Some (<[k := v]> g))
  | None => Panics "assignment to entry in nil map"
  end.

Record MockDCli : Type := mkMockDCli {
  running : boolmap;
  containers : boolmap;
  images : boolmap;
  err : bool;
  idNotExist : bool;
  dockerIsOffline : bool;
}.

(** [ErrClientError] is returned, when the client should return an error. *)
Definition ErrClientError : error := mkError "client failure".

(** [ErrAlreadyRunning] is returned, if a container which should be started
    is already running. *)
Definition ErrAlreadyRunning : error := mkError "container already running".

(** [NewMockDCli] returns a new instance of MockDCli. *)
Definition NewMockDCli : MockDCli :=
  {| running := Some ∅; containers := Some ∅; images := Some ∅;
     err := false; idNotExist := false; dockerIsOffline := false |}.

(** The zero value [MockDCli{}]. *)
Definition zero : MockDCli :=
  {| running := None; containers := None; images := None;
     err := false; idNotExist := false; dockerIsOffline := false |}.

Definition set_running (d : MockDCli) (m : boolmap) : MockDCli :=
  mkMockDCli m (containers d) (images d) (err d) (idNotExist d)
    (dockerIsOffline d).

Definition set_containers (d : MockDCli) (m : boolmap) : MockDCli :=
  mkMockDCli (running d) m (images d) (err d) (idNotExist d)
    (dockerIsOffline d).

Definition set_images (d : MockDCli) (m : boolmap) : MockDCli :=
  mkMockDCli (running d) (containers d) m (err d) (idNotExist d)
    (dockerIsOffline d).

Definition set_err (d : MockDCli) (b : bool) : MockDCli :=
  mkMockDCli (running d) (containers d) (images d) b (idNotExist d)
    (dockerIsOffline d).

(** [SetError] sets the err property of MockDCli to be true. *)
Definition SetError (d : MockDCli) : MockDCli := set_err d true.

(** [SetDockerOffline] simulates a non responding docker daemon. *)
Definition SetDockerOffline (d : MockDCli) : MockDCli :=
  mkMockDCli (running d) (containers d) (images d) (err d) (idNotExist d) true.

(** [SetIDNotExisting] simulates a non existing docker container id. *)
Definition SetIDNotExisting (d : MockDCli) : MockDCli :=
  mkMockDCli (running d) (containers d) (images d) (err d) true
    (dockerIsOffline d).

Definition produceError (d : MockDCli) : MockDCli * bool :=
  if err d then (set_err d false, true) else (d, false).

(** [IsRunning] checks if a mocked container is running. *)
Definition IsRunning (d : MockDCli) (container : string) : bool :=
  get (running d) container.

(** [CreateMockImage] creates a mock image. *)
Definition CreateMockImage (d : MockDCli) (image : string) : outcome MockDCli :=
  match put (images d) image true with
  | Returns m => Returns (set_images d m)
  | Panics msg => Panics msg
  end.

Definition ContainerStart (d : MockDCli) (container : string)
  : outcome (MockDCli * option error) :=
  let '(d, failing) := produceError d in
  if failing then Returns (d, Some ErrClientError)
  else if negb (IsRunning d container) then
    match put (running d) container true with
    | Returns m => Returns (set_running d m, None)
    | Panics msg => Panics msg
    end
  else Returns (d, Some ErrAlreadyRunning).

(** [||] evaluates [d.produceError()] first and the test on the map only
    when that returned false; the test reads and so its order of
    evaluation does not show. *)
Definition ContainerKill (d : MockDCli) (container : string)
  : outcome (MockDCli * option error) :=
  let '(d, failing) := produceError d in
  if failing || negb (IsRunning d container) then
    Returns (d, Some ErrClientError)
  else
    match put (running d) container false with
    | Returns m => Returns (set_running d m, None)
    | Panics msg => Panics msg
    end.

(** [strings.Join(config.Cmd, " ")] is [String.concat " " Cmd]. *)
Definition ContainerExecCreate (d : MockDCli) (container : string)
    (Cmd : list string) : MockDCli * (string * option error) :=
  let '(d, failing) := produceError d in
  if failing || negb (IsRunning d container) then
    (d, (""%string, Some ErrClientError))
  else (d, (String.concat " " Cmd, None)).

Definition ContainerCreate (d : MockDCli) (containerName : string)
  : outcome (MockDCli * (string * option error)) :=
  let '(d, failing) := produceError d in
  if failing || dockerIsOffline d then
    Returns (d, (""%string, Some ErrClientError))
  else
    match put (containers d) containerName true with
    | Returns m => Returns (set_containers d m, (containerName, None))
    | Panics msg => Panics msg
    end.

(** [ContainerRename] renames a container with a given ID. *)
Definition ContainerRename (d : MockDCli) (containerID newContainerName : string)
  : MockDCli * option error :=
  let '(d, failing) := produceError d in
  if failing || negb (get (containers d) containerID) || idNotExist d then
    (d, Some ErrClientError)
  else (d, None).

(** [ContainerRemove] removes a container with a given ID. *)
Definition ContainerRemove (d : MockDCli) (containerID : string)
  : outcome (MockDCli * option error) :=
  let '(d, failing) := produceError d in
  if failing || negb (get (containers d) containerID) then
    Returns (d, Some ErrClientError)
  else
    match put (containers d) containerID false with
    | Returns m => Returns (set_containers d m, None)
    | Panics msg => Panics msg
    end.

(** The [error] of [ImageInspectWithRaw]; its other two results are the
    zero [types.ImageInspect] and nil on both paths. *)
Definition ImageInspectWithRaw (d : MockDCli) (imageID : string) : option error :=
  if get (images d) imageID then None
  else Some (mkError "Image does not exist").

(** [IsErrImageNotFound] returns true if the error means the image was not
    found. *)
Definition IsErrImageNotFound (d : MockDCli) (e : option error) : bool :=
  match e with
  | Some _ => true
  | None => false
  end.

(** A call on the mock, to speak of sequences of calls. *)
Inductive call : Type :=
| CallSetError
| CallSetDockerOffline
| CallSetIDNotExisting
| CallCreateMockImage (image : string)
| CallContainerStart (container : string)
| CallContainerKill (container : string)
| CallContainerExecCreate (container : string) (Cmd : list string)
| CallContainerCreate (containerName : string)
| CallContainerRename (containerID newContainerName : string)
| CallContainerRemove (containerID : string)
| CallImageInspectWithRaw (imageID : string).

(** The calls that consult [produceError]. *)
Definition consults_error (c : call) : bool :=
  match c with
  | CallContainerStart _ | CallContainerKill _ | CallContainerExecCreate _ _
  | CallContainerCreate _ | CallContainerRename _ _ | CallContainerRemove _ => true
  | _ => false
  end.

(** One call: the struct it leaves and the [error] it returns (nil for the
    methods that return none). *)
Definition invoke (c : call) (d : MockDCli) : outcome (MockDCli * option error) :=
  match c with
  | CallSetError => Returns (SetError d, None)
  | CallSetDockerOffline => Returns (SetDockerOffline d, None)
  | CallSetIDNotExisting => Returns (SetIDNotExisting d, None)
  | CallCreateMockImage image =>
      match CreateMockImage d image with
      | Returns d' => Returns (d', None)
      | Panics msg => Panics msg
      end
  | CallContainerStart container => ContainerStart d container
  | CallContainerKill container => ContainerKill d container
  | CallContainerExecCreate container Cmd =>
      let '(d', (_, e)) := ContainerExecCreate d container Cmd in Returns (d', e)
  | CallContainerCreate containerName =>
      match ContainerCreate d containerName with
      | Returns (d', (_, e)) => Returns (d', e)
      | Panics msg => Panics msg
      end
  | CallContainerRename containerID newContainerName =>
      Returns (ContainerRename d containerID newContainerName)
  | CallContainerRemove containerID => ContainerRemove d containerID
  | CallImageInspectWithRaw imageID => Returns (d, ImageInspectWithRaw d imageID)
  end.

(** A sequence of calls, stopping at a panic. *)
Fixpoint invoke_all (cs : list call) (d : MockDCli) : outcome MockDCli :=
  match cs with
  | nil => Returns d
  | c :: rest =>
      match invoke c d with
      | Returns (d', _) => invoke_all rest d'
      | Panics msg => Panics msg
      end
  end.

(** All three maps were made. *)
Definition made (d : MockDCli) : Prop :=
  is_Some (running d) /\ is_Some (containers d) /\ is_Some (images d).

End Mock.

(** ** More of the scenario: a second service, an impostor, and states of
    the mock *)
Module Fixtures.

(** A second service, with an identifier of its own. *)
Definition other_description : @ServiceDescription bytes := {|
  protocolName := Scenario.other_svc;
  endpoints := <[Scenario.echo_method := Scenario.echo]> ∅;
|}.

(** A description that takes the identifier of the first service. *)
Definition impostor : @ServiceDescription bytes := {|
  protocolName := Scenario.svc;
  endpoints := <[Scenario.echo_method := Scenario.refuse]> ∅;
|}.

(** The server after both services were registered. *)
Definition both : @Server bytes unit :=
  {| protocolHandler := Scenario.frames; logger := tt;
     services := Some (<[Scenario.other_svc := other_description]>
                         (<[Scenario.svc := Scenario.description]> ∅)) |}.

(** The connection of the scenario once [calls] were made, with [msgs]
    still to come. *)
Definition left_with (msgs : list bytes) (calls : list (@Call bytes unit))
  : @World bytes unit :=
  {| server := Scenario.registered;
     incoming := List.map (fun m => Ok (1, m)) msgs;
     faults := nil;
     trace := calls |}.

(** The mock after the container "web" was created. *)
Definition with_web : Mock.MockDCli :=
  Mock.mkMockDCli (Some ∅) (Some (<["web"%string := true]> ∅)) (Some ∅)
    false false false.

(** The mock with both switches thrown. *)
Definition switched_off : Mock.MockDCli :=
  Mock.SetDockerOffline (Mock.SetIDNotExisting Mock.NewMockDCli).

End Fixtures.

Section SessionFacts.

Context {Data Logger : Type}.
#[local] Abbreviation World := (@World Data Logger).
#[local] Abbreviation sessionE := (@sessionE Data Logger).

(** ** Running a session: one call at a time *)

Lemma run_ret {R : Type} (r : R) (w : World) : run (Ret r) w ≅ Ret (w, r).
Proof. unfold run. apply interp_state_ret. Qed.

Lemma run_call {X R : Type} (e : sessionE X) (k : X -> itree sessionE R) (w : World) :
  run (ITree.bind (ITree.trigger e) k) w
  ≈ run (k (snd (perform e w))) (fst (perform e w)).
Proof.
  unfold run. rewrite interp_state_bind, interp_state_trigger.
  unfold environment at 1. rewrite bind_ret_l. reflexivity.
Qed.

Lemma run_bind_ret {A R : Type} (t : itree sessionE A) (k : A -> itree sessionE R)
    (w w' : World) (a : A) :
  run t w ≈ Ret (w', a) -> run (ITree.bind t k) w ≈ run (k a) w'.
Proof.
  intros H. unfold run in *. rewrite interp_state_bind, H, bind_ret_l.
  reflexivity.
Qed.

(** ** The write, and the five paths that lead to it *)

Lemma send_ok (messageType : Z) (data : bytes) (w : World) :
  hd None (faults w) = None ->
  run (send messageType data) w
  ≈ Ret (mkWorld (server w) (incoming w) (tl (faults w))
           (trace w ++ Wrote messageType data None :: nil), continue).
Proof.
  intros H. unfold send. rewrite run_call. cbn. rewrite H.
  rewrite run_ret. reflexivity.
Qed.

Lemma send_failed (messageType : Z) (data : bytes) (w : World) (err : error) :
  hd None (faults w) = Some err ->
  run (send messageType data) w
  ≈ Ret (mkWorld (server w) (incoming w) (tl (faults w))
           (trace w ++ Wrote messageType data (Some err)
                    :: Logged (logger (server w)) err :: Closed :: nil),
         returned).
Proof.
  intros H. unfold send. rewrite run_call. cbn. rewrite H.
  rewrite !run_call. cbn. rewrite run_ret.
  unfold traced; cbn. rewrite <- !app_assoc. reflexivity.
Qed.

Lemma dispatch_decode_error (messageType : Z) (request : bytes) (w : World)
    (err : error) :
  Decode (protocolHandler (server w)) request = Err err ->
  run (dispatch messageType request) w
  ≈ run (send messageType (raw err)) (logged (Decoded request :: nil) w).
Proof.
  intros H. unfold dispatch. rewrite !run_call. cbn. rewrite H. reflexivity.
Qed.

Lemma dispatch_unresolved (messageType : Z) (request : bytes) (w : World)
    (srv me : ProtocolID) (data : Data) (err : error) :
  Decode (protocolHandler (server w)) request = Ok (srv, me, data) ->
  EndpointHandler (service (server w) srv) me = Err err ->
  run (dispatch messageType request) w
  ≈ run (send messageType (raw err)) (logged (Decoded request :: nil) w).
Proof.
  intros H1 H2. unfold dispatch. rewrite !run_call. cbn. rewrite H1.
  rewrite run_call. cbn. rewrite H2. reflexivity.
Qed.

Lemma dispatch_handler_error (messageType : Z) (request : bytes) (w : World)
    (srv me : ProtocolID) (data : Data) (handler : Handler) (err : error) :
  Decode (protocolHandler (server w)) request = Ok (srv, me, data) ->
  EndpointHandler (service (server w) srv) me = Ok handler ->
  handler data = Err err ->
  run (dispatch messageType request) w
  ≈ run (send messageType (raw err))
      (logged (Decoded request :: Invoked handler data :: nil) w).
Proof.
  intros H1 H2 H3. unfold dispatch. rewrite !run_call. cbn. rewrite H1.
  rewrite run_call. cbn. rewrite H2. rewrite run_call. cbn. rewrite H3.
  unfold traced, logged; cbn. rewrite <- !app_assoc. reflexivity.
Qed.

Lemma dispatch_encode_error (messageType : Z) (request : bytes) (w : World)
    (srv me : ProtocolID) (data res : Data) (handler : Handler) (err : error) :
  Decode (protocolHandler (server w)) request = Ok (srv, me, data) ->
  EndpointHandler (service (server w) srv) me = Ok handler ->
  handler data = Ok res ->
  Encode (protocolHandler (server w)) srv me res = Err err ->
  run (dispatch messageType request) w
  ≈ run (send messageType (raw err))
      (logged (Decoded request :: Invoked handler data
                 :: Encoded srv me res :: nil) w).
Proof.
  intros H1 H2 H3 H4. unfold dispatch. rewrite !run_call. cbn. rewrite H1.
  rewrite run_call. cbn. rewrite H2. rewrite run_call. cbn. rewrite H3.
  rewrite !run_call. cbn. rewrite H4.
  unfold traced, logged; cbn. rewrite <- !app_assoc. reflexivity.
Qed.

Lemma dispatch_encoded (messageType : Z) (request : bytes) (w : World)
    (srv me : ProtocolID) (data res : Data) (handler : Handler)
    (response : bytes) :
  Decode (protocolHandler (server w)) request = Ok (srv, me, data) ->
  EndpointHandler (service (server w) srv) me = Ok handler ->
  handler data = Ok res ->
  Encode (protocolHandler (server w)) srv me res = Ok response ->
  run (dispatch messageType request) w
  ≈ run (send messageType response)
      (logged (Decoded request :: Invoked handler data
                 :: Encoded srv me res :: nil) w).
Proof.
  intros H1 H2 H3 H4. unfold dispatch. rewrite !run_call. cbn. rewrite H1.
  rewrite run_call. cbn. rewrite H2. rewrite run_call. cbn. rewrite H3.
  rewrite !run_call. cbn. rewrite H4.
  unfold traced, logged; cbn. rewrite <- !app_assoc. reflexivity.
Qed.

(** ** The read, and the loop *)

Lemma iteration_read (w : World) (messageType : Z) (request : bytes)
    (rest : list (result (Z * bytes))) :
  incoming w = Ok (messageType, request) :: rest ->
  run iteration w
  ≈ run (dispatch messageType request)
      (mkWorld (server w) rest (faults w)
         (trace w ++ Read (Ok (messageType, request)) :: nil)).
Proof.
  intros H. unfold iteration. rewrite run_call. cbn. rewrite H. cbn.
  reflexivity.
Qed.

Lemma iteration_read_failed (w : World) (err : error) :
  hd (Err io_EOF) (incoming w) = Err err ->
  run iteration w
  ≈ Ret (mkWorld (server w) (tl (incoming w)) (faults w)
           (trace w ++ Read (Err err) :: Closed :: nil), returned).
Proof.
  intros H. unfold iteration. rewrite run_call. cbn. rewrite H.
  rewrite run_call. cbn. rewrite run_ret.
  unfold traced; cbn. rewrite <- !app_assoc. reflexivity.
Qed.

Lemma session_continues (w w' : World) :
  run iteration w ≈ Ret (w', continue) -> session w ≈ session w'.
Proof.
  intros H. unfold session, handleConnection.
  rewrite unfold_iter at 1.
  rewrite (run_bind_ret _ _ _ _ _ H). cbn.
  unfold run. rewrite interp_state_tau, tau_eutt. reflexivity.
Qed.

Lemma session_returns (w w' : World) :
  run iteration w ≈ Ret (w', returned) -> session w ≈ Ret (w', tt).
Proof.
  intros H. unfold session, handleConnection.
  rewrite unfold_iter.
  rewrite (run_bind_ret _ _ _ _ _ H). cbn.
  rewrite run_ret. reflexivity.
Qed.

(** ** One pass of the loop body, whatever the message *)

(** Whatever the message, the loop body resolves it to one frame and sends
    that frame; what it calls on the way is the codec and the handler. *)
Lemma dispatch_sends (messageType : Z) (request : bytes) (w : World) :
  exists (calls : list Call) (payload : bytes),
    Forall (fun c => on_transport c = false) calls /\
    is_reply (server w) payload /\
    run (dispatch messageType request) w
    ≈ run (send messageType payload) (logged calls w).
Proof.
  unfold is_reply.
  destruct (Decode (protocolHandler (server w)) request)
    as [[[srv me] data]|err] eqn:Hdec.
  2:{ eexists _, _; split; [|split; [|eapply dispatch_decode_error; eassumption]];
      [repeat constructor|eauto]. }
  destruct (EndpointHandler (service (server w) srv) me)
    as [handler|err] eqn:Hres.
  2:{ eexists _, _; split; [|split; [|eapply dispatch_unresolved; eassumption]];
      [repeat constructor|eauto]. }
  destruct (handler data) as [res|err] eqn:Hcall.
  2:{ eexists _, _; split; [|split; [|eapply dispatch_handler_error; eassumption]];
      [repeat constructor|eauto]. }
  destruct (Encode (protocolHandler (server w)) srv me res)
    as [response|err] eqn:Henc.
  - eexists _, _; split; [|split; [|eapply dispatch_encoded; eassumption]];
      [repeat constructor|eauto].
  - eexists _, _; split; [|split; [|eapply dispatch_encode_error; eassumption]];
      [repeat constructor|eauto].
Qed.

(** Once resolution has given a handler, the loop body calls it, once, on
    the decoded payload, whatever comes of the call. *)
Lemma dispatch_invokes (messageType : Z) (request : bytes) (w : World)
    (srv me : ProtocolID) (p : Data) (handler : Handler) :
  Decode (protocolHandler (server w)) request = Ok (srv, me, p) ->
  EndpointHandler (service (server w) srv) me = Ok handler ->
  exists (calls : list Call) (payload : bytes),
    (forall h d, Invoked h d ∉ calls) /\
    run (dispatch messageType request) w
    ≈ run (send messageType payload)
        (logged (Decoded request :: Invoked handler p :: calls) w).
Proof.
  intros Hdec Hres.
  destruct (handler p) as [res|err] eqn:Hcall.
  - destruct (Encode (protocolHandler (server w)) srv me res)
      as [response|err] eqn:Henc.
    + exists (Encoded srv me res :: nil), response. split.
      * intros h d [Hc|Hc%elem_of_nil]%elem_of_cons; [discriminate|exact Hc].
      * eapply dispatch_encoded; eassumption.
    + exists (Encoded srv me res :: nil), (raw err). split.
      * intros h d [Hc|Hc%elem_of_nil]%elem_of_cons; [discriminate|exact Hc].
      * eapply dispatch_encode_error; eassumption.
  - exists nil, (raw err). split.
    + intros h d Hc%elem_of_nil. exact Hc.
    + eapply dispatch_handler_error; eassumption.
Qed.

(** One pass of the loop body over a message that was read, in full. *)
Lemma iteration_effect (w : World) (messageType : Z) (request : bytes)
    (rest : list (result (Z * bytes))) :
  incoming w = Ok (messageType, request) :: rest ->
  exists (calls : list Call) (payload : bytes),
    Forall (fun c => on_transport c = false) calls /\
    is_reply (server w) payload /\
    run iteration w
    ≈ Ret (match hd None (faults w) with
           | None =>
               (mkWorld (server w) rest (tl (faults w))
                  (trace w ++ Read (Ok (messageType, request)) :: calls
                           ++ Wrote messageType payload None :: nil),
                continue)
           | Some err =>
               (mkWorld (server w) rest (tl (faults w))
                  (trace w ++ Read (Ok (messageType, request)) :: calls
                           ++ Wrote messageType payload (Some err)
                           :: Logged (logger (server w)) err :: Closed :: nil),
                returned)
           end).
Proof.
  intros Hin.
  destruct (dispatch_sends messageType request
              (mkWorld (server w) rest (faults w)
                 (trace w ++ Read (Ok (messageType, request)) :: nil)))
    as (calls & payload & Hcalls & Hkind & Hrun).
  exists calls, payload. split; [exact Hcalls|]. split; [exact Hkind|].
  rewrite (iteration_read _ _ _ _ Hin), Hrun.
  destruct (hd None (faults w)) as [err|] eqn:Hw.
  - rewrite (send_failed _ _ _ err) by exact Hw.
    unfold logged; cbn. rewrite <- !app_assoc. reflexivity.
  - rewrite send_ok by exact Hw.
    unfold logged; cbn. rewrite <- !app_assoc. reflexivity.
Qed.


(** One pass of the loop body along the path the hypotheses in the context
    select, the frame being accepted by the transport: the pass returns at
    its end, for the loop to go round again. *)
Ltac one_pass path :=
  rewrite iteration_read by eassumption;
  (etransitivity; [eapply path; cbn; eassumption|]);
  rewrite send_ok by (cbn; assumption);
  unfold logged; cbn; rewrite <- ?app_assoc; reflexivity.


Lemma pass_encoded (w : World) (messageType : Z) (request : bytes)
    (rest : list (result (Z * bytes))) (srv me : ProtocolID) (p res : Data)
    (handler : Handler) (response : bytes) :
  incoming w = Ok (messageType, request) :: rest ->
  Decode (protocolHandler (server w)) request = Ok (srv, me, p) ->
  EndpointHandler (service (server w) srv) me = Ok handler ->
  handler p = Ok res ->
  Encode (protocolHandler (server w)) srv me res = Ok response ->
  hd None (faults w) = None ->
  run iteration w
  ≈ Ret (mkWorld (server w) rest (tl (faults w))
           (trace w ++ Read (Ok (messageType, request))
                    :: Decoded request
                    :: Invoked handler p
                    :: Encoded srv me res
                    :: Wrote messageType response None :: nil), continue).
Proof. intros Hin Hdec Hres Hcall Henc Hw. one_pass dispatch_encoded. Qed.

(** [RegisterService_call] does to the shared struct what [RegisterService]
    computes, and touches nothing else. *)
Lemma RegisterService_call_run (sd : ServiceDescription) (w : World) :
  run (RegisterService_call sd) w
  ≈ Ret (match RegisterService (server w) sd with
         | Returns (s', err) =>
             (mkWorld s' (incoming w) (faults w) (trace w), Returns err)
         | Panics msg => (w, Panics msg)
         end).
Proof.
  destruct w as [s msgs fs tr].
  unfold RegisterService_call, RegisterService. rewrite run_call. cbn.
  destruct (bool_decide (is_Some (service s (protocolName sd)))).
  - rewrite run_ret. reflexivity.
  - rewrite run_call. cbn. destruct (services s) as [m|].
    + rewrite run_call. cbn. rewrite run_ret. reflexivity.
    + rewrite run_ret. reflexivity.
Qed.

(** ** Resolution failures *)


(** ** The success path *)

(** C3.  A message that decodes to a registered pair and payload [p]: the
    pass of the loop body that reads it calls the handler registered for the
    pair on [p], and calls no handler besides, whatever the call returns.
    When it returns a result, the pass has the codec encode the pair with
    that result, writes that encoding, once, and returns at its end for the
    loop to go round again. *)
Theorem registered_handler_is_invoked (w : World) (messageType : Z)
    (request : bytes) (rest : list (result (Z * bytes)))
    (srv me : ProtocolID) (p : Data) (sd : ServiceDescription)
    (handler : Handler) :
  incoming w = Ok (messageType, request) :: rest ->
  Decode (protocolHandler (server w)) request = Ok (srv, me, p) ->
  service (server w) srv = Some sd ->
  endpoints sd !! me = Some handler ->
  (exists (w' : World) (ctl : unit + unit) (calls : list Call),
      run iteration w ≈ Ret (w', ctl) /\
      trace w' = trace w ++ Read (Ok (messageType, request))
                         :: Decoded request
                         :: Invoked handler p :: calls /\
      forall h d, Invoked h d ∉ calls) /\
  forall (res : Data) (response : bytes),
    handler p = Ok res ->
    Encode (protocolHandler (server w)) srv me res = Ok response ->
    hd None (faults w) = None ->
    run iteration w
    ≈ Ret (mkWorld (server w) rest (tl (faults w))
             (trace w ++ Read (Ok (messageType, request))
                      :: Decoded request
                      :: Invoked handler p
                      :: Encoded srv me res
                      :: Wrote messageType response None :: nil),
           continue) /\
    session w
    ≈ session (mkWorld (server w) rest (tl (faults w))
                 (trace w ++ Read (Ok (messageType, request))
                          :: Decoded request
                          :: Invoked handler p
                          :: Encoded srv me res
                          :: Wrote messageType response None :: nil)).
Proof.
  intros Hin Hdec Hsd Hme.
  assert (EndpointHandler (service (server w) srv) me = Ok handler) as Hres.
  { rewrite Hsd. cbn. now rewrite Hme. }
  split.
  - destruct (dispatch_invokes messageType request
                (mkWorld (server w) rest (faults w)
                   (trace w ++ Read (Ok (messageType, request)) :: nil))
                srv me p handler Hdec Hres)
      as (calls & payload & Hcalls & Hrun).
    destruct (hd None (faults w)) as [werr|] eqn:Hw.
    + eexists _, returned,
        (calls ++ Wrote messageType payload (Some werr)
           :: Logged (logger (server w)) werr :: Closed :: nil).
      split; [|split].
      * rewrite (iteration_read _ _ _ _ Hin), Hrun.
        apply (send_failed _ _ _ werr). exact Hw.
      * unfold logged; cbn. now rewrite <- !app_assoc.
      * intros h d [Hc|Hc]%elem_of_app; [exact (Hcalls _ _ Hc)|].
        repeat (apply elem_of_cons in Hc as [Hc|Hc]; [discriminate|]).
        now apply elem_of_nil in Hc.
    + eexists _, continue, (calls ++ Wrote messageType payload None :: nil).
      split; [|split].
      * rewrite (iteration_read _ _ _ _ Hin), Hrun.
        apply send_ok. exact Hw.
      * unfold logged; cbn. now rewrite <- !app_assoc.
      * intros h d [Hc|Hc]%elem_of_app; [exact (Hcalls _ _ Hc)|].
        repeat (apply elem_of_cons in Hc as [Hc|Hc]; [discriminate|]).
        now apply elem_of_nil in Hc.
  - intros res response Hcall Henc Hw.
    pose proof (pass_encoded w messageType request rest srv me p res handler
                  response Hin Hdec Hres Hcall Henc Hw) as Hpass.
    split; [exact Hpass|exact (session_continues _ _ Hpass)].
Qed.

(** ** Failures reported to the peer *)




(** ** Transport failures *)

(** C5.  Whatever the message, the loop body answers it with one frame, an
    error text or an encoded response.  When the transport refuses that
    frame the session logs the error, closes the connection and returns:
    [Closed] is the last call it makes, and what the peer had still to send
    is left unread. *)
Theorem write_failure_closes_session (w : World) (messageType : Z)
    (request : bytes) (rest : list (result (Z * bytes))) (e : error) :
  incoming w = Ok (messageType, request) :: rest ->
  hd None (faults w) = Some e ->
  exists (calls : list Call) (payload : bytes),
    Forall (fun c => on_transport c = false) calls /\
    is_reply (server w) payload /\
    session w
    ≈ Ret (mkWorld (server w) rest (tl (faults w))
             (trace w ++ Read (Ok (messageType, request)) :: calls
                      ++ Wrote messageType payload (Some e)
                      :: Logged (logger (server w)) e :: Closed :: nil),
           tt).
Proof.
  intros Hin Hw.
  destruct (iteration_effect w messageType request rest Hin)
    as (calls & payload & Hcalls & Hkind & Hrun).
  rewrite Hw in Hrun.
  exists calls, payload. repeat split; try assumption.
  apply session_returns, Hrun.
Qed.

(** ** The registry under dispatch *)


(** ** Message types *)

(** C10.  In the pass of the loop body that read a message of type
    [messageType], a frame is written, and every frame written carries
    [messageType]. *)
Theorem responses_keep_message_type (w : World) (messageType : Z)
    (request : bytes) (rest : list (result (Z * bytes))) :
  incoming w = Ok (messageType, request) :: rest ->
  exists (w' : World) (ctl : unit + unit) (calls : list Call),
    run iteration w ≈ Ret (w', ctl) /\
    trace w' = trace w ++ Read (Ok (messageType, request)) :: calls /\
    (exists data err, Wrote messageType data err ∈ calls) /\
    forall messageType' data err,
      Wrote messageType' data err ∈ calls -> messageType' = messageType.
Proof.
  intros Hin.
  destruct (iteration_effect w messageType request rest Hin)
    as (calls & payload & Hcalls & _ & Hrun).
  rewrite Forall_forall in Hcalls.
  destruct (hd None (faults w)) as [werr|];
    eexists _, _, _; (split; [exact Hrun|]); (split; [reflexivity|]); split.
  - exists payload, (Some werr). apply elem_of_app. right. apply elem_of_cons; now left.
  - intros mt' data err [Hc|Hc]%elem_of_app;
      [apply Hcalls in Hc; discriminate|].
    repeat (apply elem_of_cons in Hc as [Hc|Hc]; [congruence|]).
    now apply elem_of_nil in Hc.
  - exists payload, None. apply elem_of_app. right. apply elem_of_cons; now left.
  - intros mt' data err [Hc|Hc]%elem_of_app;
      [apply Hcalls in Hc; discriminate|].
    repeat (apply elem_of_cons in Hc as [Hc|Hc]; [congruence|]).
    now apply elem_of_nil in Hc.
Qed.

End SessionFacts.

(** ** The registry *)

Section RegistryFacts.

Context {Data Logger : Type}.
#[local] Abbreviation Server := (@Server Data Logger).
#[local] Abbreviation ServiceDescription := (@ServiceDescription Data).

Lemma RegisterService_duplicate (s : Server) (sd : ServiceDescription) :
  is_Some (service s (protocolName sd)) ->
  RegisterService s sd
  = Returns (s, Some (mkError ("Service Endpoint " ++ fmt_s (protocolName sd)
                                 ++ " already exists"))).
Proof.
  intros H. unfold RegisterService. now rewrite bool_decide_eq_true_2.
Qed.

Lemma RegisterService_fresh (s : Server) (sd : ServiceDescription)
    (m : gmap ProtocolID ServiceDescription) :
  services s = Some m ->
  m !! protocolName sd = None ->
  RegisterService s sd
  = Returns (mkServer (protocolHandler s) (logger s)
               (Some (<[protocolName sd := sd]> m)), None).
Proof.
  intros Hs Hm. unfold RegisterService.
  rewrite bool_decide_eq_false_2.
  - now rewrite Hs.
  - unfold service. rewrite Hs, Hm. now intros [? ?].
Qed.

(** X1.  On a server whose services map was made, [RegisterService]
    refuses an identifier the map holds and leaves the server as it was,
    and inserts a description whose identifier the map does not hold. *)
Theorem RegisterService_on_made_map (s : Server) (sd : ServiceDescription)
    (m : gmap ProtocolID ServiceDescription) :
  services s = Some m ->
  (is_Some (m !! protocolName sd) ->
   exists err : error, RegisterService s sd = Returns (s, Some err)) /\
  (m !! protocolName sd = None ->
   RegisterService s sd
   = Returns (mkServer (protocolHandler s) (logger s)
                (Some (<[protocolName sd := sd]> m)), None)).
Proof.
  intros Hs. split.
  - intros Hm. eexists. apply RegisterService_duplicate.
    unfold service. now rewrite Hs.
  - intros Hm. now apply RegisterService_fresh.
Qed.

(** C2, at the registry [NewServer] builds.  No identifier is registered
    there, so the description's identifier is absent; the call neither
    inserts nor returns. *)
Theorem RegisterService_absent_not_inserted (ph : ProtocolHandler)
    (l : Logger) (sd : ServiceDescription) :
  service (NewServer ph l) (protocolName sd) = None /\
  ~ exists s' : Server, RegisterService (NewServer ph l) sd = Returns (s', None).
Proof.
  split; [reflexivity|]. intros [s' H]. discriminate H.
Qed.

(** C9.  [NewServer] leaves the services map nil; [RegisterService] on the
    server it returns panics on the assignment of line 31; and a call of
    [RegisterService] that does insert started from a map that was made. *)
Theorem NewServer_registry_is_nil (ph : ProtocolHandler) (l : Logger) :
  services (NewServer ph l) = None /\
  (forall sd : ServiceDescription,
      RegisterService (NewServer ph l) sd
      = Panics "assignment to entry in nil map") /\
  (forall (s s' : Server) (sd : ServiceDescription),
      RegisterService s sd = Returns (s', None) ->
      exists m, services s = Some m /\ m !! protocolName sd = None /\
                services s' = Some (<[protocolName sd := sd]> m)).
Proof.
  split; [reflexivity|]. split; [reflexivity|].
  intros s s' sd. unfold RegisterService.
  destruct (bool_decide _) eqn:Hex; [discriminate|].
  apply bool_decide_eq_false_1 in Hex.
  unfold service in Hex.
  destruct (services s) as [m|]; [|discriminate].
  intros [= <-]. exists m. repeat split.
  destruct (m !! protocolName sd) eqn:Hm; [|reflexivity].
  exfalso. apply Hex. eauto.
Qed.

End RegistryFacts.

(** ** The calls of a whole session *)

Section SessionCalls.

Context {Data Logger : Type}.
#[local] Abbreviation World := (@World Data Logger).
#[local] Abbreviation Server := (@Server Data Logger).
#[local] Abbreviation Call := (@Call Data Logger).

(** The loop body sends [answer], and calls only the codec and the handler
    before it does. *)
Lemma dispatch_answers (messageType : Z) (request : bytes) (w : World) :
  exists inner : list Call,
    Forall (fun c => internal c = true) inner /\
    run (dispatch messageType request) w
    ≈ run (send messageType (answer (server w) request)) (logged inner w).
Proof.
  unfold answer.
  destruct (Decode (protocolHandler (server w)) request)
    as [[[srv me] data]|err] eqn:Hdec.
  2:{ eexists; split; [|eapply dispatch_decode_error; eassumption].
      repeat constructor. }
  destruct (EndpointHandler (service (server w) srv) me)
    as [handler|err] eqn:Hres.
  2:{ eexists; split; [|eapply dispatch_unresolved; eassumption].
      repeat constructor. }
  destruct (handler data) as [res|err] eqn:Hcall.
  2:{ eexists; split; [|eapply dispatch_handler_error; eassumption].
      repeat constructor. }
  destruct (Encode (protocolHandler (server w)) srv me res)
    as [response|err] eqn:Henc.
  - eexists; split; [|eapply dispatch_encoded; eassumption].
    repeat constructor.
  - eexists; split; [|eapply dispatch_encode_error; eassumption].
    repeat constructor.
Qed.

(** Every session returns, and the calls it made have the shape
    [session_calls] describes. *)
Lemma session_follows (w : World) :
  exists (w' : World) (calls : list Call),
    session w ≈ Ret (w', tt) /\
    trace w' = trace w ++ calls /\
    session_calls (server w) (incoming w) (faults w) calls.
Proof.
  remember (incoming w) as msgs eqn:Hmsgs.
  revert w Hmsgs. induction msgs as [|[[messageType request]|err] rest IH];
    intros w Hmsgs; symmetry in Hmsgs.
  - eexists _, _. split; [|split; [|apply calls_hangup]].
    + apply session_returns, (iteration_read_failed _ io_EOF).
      now rewrite Hmsgs.
    + reflexivity.
  - destruct (dispatch_answers messageType request
                (mkWorld (server w) rest (faults w)
                   (trace w ++ Read (Ok (messageType, request)) :: nil)))
      as (inner & Hinner & Hrun).
    cbn [server] in Hrun.
    destruct (hd None (faults w)) as [werr|] eqn:Hw.
    + eexists _, _. split; [|split; [|apply calls_write_failed; eassumption]].
      * apply session_returns.
        rewrite (iteration_read _ _ _ _ Hmsgs), Hrun.
        apply (send_failed _ _ _ werr). exact Hw.
      * unfold logged; cbn. now rewrite <- !app_assoc.
    + destruct (IH (mkWorld (server w) rest (tl (faults w))
                      (trace w ++ Read (Ok (messageType, request)) :: inner
                               ++ Wrote messageType (answer (server w) request)
                                    None :: nil))
                   eq_refl) as (w' & later & Hw' & Ht & Hlater).
      cbn [server faults trace] in Ht, Hlater.
      exists w', (Read (Ok (messageType, request)) :: inner
                    ++ Wrote messageType (answer (server w) request) None
                    :: later).
      split; [|split; [|apply calls_answered; assumption]].
      * rewrite <- Hw'. apply session_continues.
        rewrite (iteration_read _ _ _ _ Hmsgs), Hrun.
        rewrite send_ok by exact Hw.
        unfold logged; cbn. now rewrite <- !app_assoc.
      * rewrite Ht. cbn. rewrite <- !app_assoc. cbn. rewrite <- !app_assoc.
        reflexivity.
  - eexists _, _. split; [|split; [|apply calls_read_failed]].
    + apply session_returns, (iteration_read_failed _ err).
      now rewrite Hmsgs.
    + reflexivity.
Qed.

Lemma written_internal (inner : list Call) :
  Forall (fun c => internal c = true) inner -> written inner = nil.
Proof.
  induction 1 as [|c inner Hc _ IH]; [reflexivity|].
  unfold written in *. cbn. rewrite IH. now destruct c.
Qed.

Lemma filter_internal (f : Call -> bool) (inner : list Call) :
  (forall c, internal c = true -> f c = false) ->
  Forall (fun c => internal c = true) inner -> List.filter f inner = nil.
Proof.
  intros Hf. induction 1 as [|c inner Hc _ IH]; [reflexivity|].
  cbn. now rewrite (Hf c Hc).
Qed.

Lemma calls_in_order (s : Server) (msgs : list (result (Z * bytes)))
    (fs : list (option error)) (calls : list Call) :
  session_calls s msgs fs calls ->
  written calls `prefix_of`
    List.map (fun m => (fst m, answer s (snd m))) (requests msgs) /\
  (Forall (fun f => f = None) fs ->
   written calls
   = List.map (fun m => (fst m, answer s (snd m))) (requests msgs)).
Proof.
  induction 1 as [fs|err rest fs|messageType request rest fs inner err Hinner Hw
                  |messageType request rest fs inner later Hinner Hw _ IH].
  - split; [apply prefix_nil|reflexivity].
  - split; [apply prefix_nil|reflexivity].
  - assert (written (Read (Ok (messageType, request)) :: inner
                       ++ Wrote messageType (answer s request) (Some err)
                       :: Logged (logger s) err :: Closed :: nil) = nil) as ->.
    { unfold written. cbn. rewrite omap_app.
      fold (written inner). now rewrite written_internal. }
    split; [apply prefix_nil|].
    intros Hfs. destruct fs as [|f fs]; [discriminate|].
    cbn in Hw. apply Forall_cons in Hfs as [Hf _]. congruence.
  - assert (written (Read (Ok (messageType, request)) :: inner
                       ++ Wrote messageType (answer s request) None :: later)
            = (messageType, answer s request) :: written later) as ->.
    { unfold written. cbn. rewrite omap_app.
      fold (written inner). now rewrite written_internal. }
    destruct IH as [IHp IHe]. cbn. split.
    + now apply prefix_cons.
    + intros Hfs. rewrite IHe; [reflexivity|].
      destruct fs; [constructor|]. now apply Forall_cons in Hfs as [_ Hfs].
Qed.

Lemma calls_paired (s : Server) (msgs : list (result (Z * bytes)))
    (fs : list (option error)) (calls : list Call) :
  session_calls s msgs fs calls ->
  length (List.filter is_write calls) = length (List.filter is_read_ok calls).
Proof.
  induction 1 as [fs|err rest fs|messageType request rest fs inner err Hinner Hw
                  |messageType request rest fs inner later Hinner Hw _ IH];
    cbn; try reflexivity;
    rewrite !List.filter_app,
      (filter_internal is_write inner), (filter_internal is_read_ok inner);
    try assumption; try (now intros []); cbn; [reflexivity|now rewrite IH].
Qed.

Lemma calls_closed_once (s : Server) (msgs : list (result (Z * bytes)))
    (fs : list (option error)) (calls : list Call) :
  session_calls s msgs fs calls ->
  exists before : list Call,
    calls = before ++ Closed :: nil /\ Closed ∉ before.
Proof.
  assert (forall inner : list Call,
             Forall (fun c => internal c = true) inner -> Closed ∉ inner)
    as Hno.
  { intros inner Hinner Hc. rewrite Forall_forall in Hinner.
    apply Hinner in Hc. discriminate. }
  induction 1 as [fs|err rest fs|messageType request rest fs inner err Hinner Hw
                  |messageType request rest fs inner later Hinner Hw _ IH].
  - exists (Read (Err io_EOF) :: nil). split; [reflexivity|].
    intros [Hc|Hc%elem_of_nil]%elem_of_cons; [discriminate|exact Hc].
  - exists (Read (Err err) :: nil). split; [reflexivity|].
    intros [Hc|Hc%elem_of_nil]%elem_of_cons; [discriminate|exact Hc].
  - exists (Read (Ok (messageType, request)) :: inner
              ++ Wrote messageType (answer s request) (Some err)
              :: Logged (logger s) err :: nil).
    split; [cbn; now rewrite <- app_assoc|].
    intros [Hc|[Hc|Hc]%elem_of_app]%elem_of_cons;
      [discriminate|exact (Hno _ Hinner Hc)|].
    repeat (apply elem_of_cons in Hc as [Hc|Hc]; [discriminate|]).
    now apply elem_of_nil in Hc.
  - destruct IH as (before & -> & Hbefore).
    exists (Read (Ok (messageType, request)) :: inner
              ++ Wrote messageType (answer s request) None :: before).
    split; [cbn; rewrite <- app_assoc; reflexivity|].
    intros [Hc|[Hc|Hc]%elem_of_app]%elem_of_cons;
      [discriminate|exact (Hno _ Hinner Hc)|].
    apply elem_of_cons in Hc as [Hc|Hc]; [discriminate|exact (Hbefore Hc)].
Qed.

Lemma calls_logged (s : Server) (msgs : list (result (Z * bytes)))
    (fs : list (option error)) (calls : list Call) (l : Logger) (e : error) :
  session_calls s msgs fs calls ->
  Logged l e ∈ calls ->
  l = logger s /\
  exists (before : list Call) (messageType : Z) (data : bytes),
    calls = before ++ Wrote messageType data (Some e)
                   :: Logged l e :: Closed :: nil.
Proof.
  assert (forall inner : list Call,
             Forall (fun c => internal c = true) inner -> Logged l e ∉ inner)
    as Hno.
  { intros inner Hinner Hc. rewrite Forall_forall in Hinner.
    apply Hinner in Hc. discriminate. }
  induction 1 as [fs|err rest fs|messageType request rest fs inner err Hinner Hw
                  |messageType request rest fs inner later Hinner Hw _ IH].
  - intros Hc.
    repeat (apply elem_of_cons in Hc as [Hc|Hc]; [discriminate|]).
    now apply elem_of_nil in Hc.
  - intros Hc.
    repeat (apply elem_of_cons in Hc as [Hc|Hc]; [discriminate|]).
    now apply elem_of_nil in Hc.
  - intros [Hc|[Hc|Hc]%elem_of_app]%elem_of_cons;
      [discriminate|destruct (Hno _ Hinner Hc)|].
    apply elem_of_cons in Hc as [Hc|Hc]; [discriminate|].
    apply elem_of_cons in Hc as [Hc|Hc].
    + injection Hc as -> ->. split; [reflexivity|].
      now exists (Read (Ok (messageType, request)) :: inner),
        messageType, (answer s request).
    + apply elem_of_cons in Hc as [Hc|Hc]; [discriminate|].
      now apply elem_of_nil in Hc.
  - intros [Hc|[Hc|Hc]%elem_of_app]%elem_of_cons;
      [discriminate|destruct (Hno _ Hinner Hc)|].
    apply elem_of_cons in Hc as [Hc|Hc]; [discriminate|].
    destruct (IH Hc) as (Hl & before & mt & data & ->).
    split; [exact Hl|].
    exists (Read (Ok (messageType, request)) :: inner
              ++ Wrote messageType (answer s request) None :: before),
      mt, data.
    cbn. rewrite <- app_assoc. reflexivity.
Qed.

(** X3.  The frames a session writes and the transport takes are the
    answers to the peer's messages, each with the type of its message and in
    the order of the messages: a prefix of them in general, and all of them
    when no write is refused.  The answer to a message is what lines 63-107
    compute for it ([answer]), the codec and the handlers being taken as
    functions of their arguments. *)
Theorem session_answers_in_order (w : World) :
  exists (w' : World) (calls : list Call),
    session w ≈ Ret (w', tt) /\
    trace w' = trace w ++ calls /\
    written calls `prefix_of`
      List.map (fun m => (fst m, answer (server w) (snd m)))
        (requests (incoming w)) /\
    (Forall (fun f => f = None) (faults w) ->
     written calls
     = List.map (fun m => (fst m, answer (server w) (snd m)))
         (requests (incoming w))).
Proof.
  destruct (session_follows w) as (w' & calls & Hrun & Ht & Hcalls).
  exists w', calls. split; [exact Hrun|]. split; [exact Ht|].
  exact (calls_in_order _ _ _ _ Hcalls).
Qed.

(** X4.  A session writes once for each message it reads, whether the
    message is served or answered with an error text, and whether or not
    the transport takes the frame: the writes attempted and the messages
    read are equally many. *)
Theorem session_writes_once_per_message (w : World) :
  exists (w' : World) (calls : list Call),
    session w ≈ Ret (w', tt) /\
    trace w' = trace w ++ calls /\
    length (List.filter is_write calls)
    = length (List.filter is_read_ok calls).
Proof.
  destruct (session_follows w) as (w' & calls & Hrun & Ht & Hcalls).
  exists w', calls. split; [exact Hrun|]. split; [exact Ht|].
  exact (calls_paired _ _ _ _ Hcalls).
Qed.

(** X5.  A session closes its connection once: the close is its last call
    and no call before it is a close. *)
Theorem session_closes_once (w : World) :
  exists (w' : World) (before : list Call),
    session w ≈ Ret (w', tt) /\
    trace w' = trace w ++ before ++ Closed :: nil /\
    Closed ∉ before.
Proof.
  destruct (session_follows w) as (w' & calls & Hrun & Ht & Hcalls).
  destruct (calls_closed_once _ _ _ _ Hcalls) as (before & -> & Hbefore).
  now exists w', before.
Qed.

(** X6.  What a session logs is the error of a refused write, on the
    server's logger, between that write and the close.  The errors of the
    codec, of resolution, of a handler and of a failed read are not
    logged. *)
Theorem session_logs_refused_write_only (w : World) :
  exists (w' : World) (calls : list Call),
    session w ≈ Ret (w', tt) /\
    trace w' = trace w ++ calls /\
    forall (l : Logger) (e : error),
      Logged l e ∈ calls ->
      l = logger (server w) /\
      exists (before : list Call) (messageType : Z) (data : bytes),
        calls = before ++ Wrote messageType data (Some e)
                       :: Logged l e :: Closed :: nil.
Proof.
  destruct (session_follows w) as (w' & calls & Hrun & Ht & Hcalls).
  exists w', calls. split; [exact Hrun|]. split; [exact Ht|].
  intros l e. exact (calls_logged _ _ _ _ l e Hcalls).
Qed.

(** X7.  A failed read ends the session in silence: the connection is
    closed and nothing is written to the peer or to the log. *)
Theorem read_failure_is_silent (w : World) (e : error) :
  hd (Err io_EOF) (incoming w) = Err e ->
  session w
  ≈ Ret (mkWorld (server w) (tl (incoming w)) (faults w)
           (trace w ++ Read (Err e) :: Closed :: nil), tt).
Proof.
  intros H. apply session_returns, iteration_read_failed, H.
Qed.

End SessionCalls.

(** ** Registration, repeated and combined with dispatch *)

Section RegistrationFacts.

Context {Data Logger : Type}.
#[local] Abbreviation Server := (@Server Data Logger).
#[local] Abbreviation ServiceDescription := (@ServiceDescription Data).

(** The two ways [RegisterService] returns. *)
Lemma RegisterService_returns (s s' : Server) (sd : ServiceDescription)
    (err : option error) :
  RegisterService s sd = Returns (s', err) ->
  (s' = s /\ is_Some (service s (protocolName sd)) /\ is_Some err) \/
  (exists m, services s = Some m /\ m !! protocolName sd = None /\
             err = None /\
             s' = mkServer (protocolHandler s) (logger s)
                    (Some (<[protocolName sd := sd]> m))).
Proof.
  unfold RegisterService.
  destruct (bool_decide _) eqn:Hex.
  - apply bool_decide_eq_true_1 in Hex. intros [= <- <-]. left. eauto.
  - apply bool_decide_eq_false_1 in Hex. unfold service in Hex.
    destruct (services s) as [m|]; [|discriminate].
    intros [= <- <-]. right. exists m. repeat split.
    destruct (m !! protocolName sd) eqn:Hm; [|reflexivity].
    exfalso. apply Hex. eauto.
Qed.

Lemma RegisterService_frame (s s' : Server) (sd : ServiceDescription)
    (err : option error) (id : ProtocolID) :
  RegisterService s sd = Returns (s', err) ->
  id <> protocolName sd \/ is_Some (service s id) ->
  service s' id = service s id.
Proof.
  intros [(-> & _ & _)|(m & Hs & Hm & _ & ->)]%RegisterService_returns Hid;
    [reflexivity|].
  unfold service in *. rewrite Hs in *. cbn.
  destruct (decide (id = protocolName sd)) as [->|Hne].
  - destruct Hid as [Hid|[d Hd]]; [now destruct Hid|congruence].
  - now apply lookup_insert_ne.
Qed.

(** X8.  A call of [RegisterService] that returns, with an error or
    without, leaves the codec and the logger of the server alone, and
    every registration that was there is still there, unchanged: nothing is
    replaced and nothing is dropped. *)
Theorem RegisterService_keeps_registrations (s s' : Server)
    (sd : ServiceDescription) (err : option error) :
  RegisterService s sd = Returns (s', err) ->
  protocolHandler s' = protocolHandler s /\
  logger s' = logger s /\
  (forall (id : ProtocolID) (d : ServiceDescription),
      service s id = Some d -> service s' id = Some d) /\
  (forall id : ProtocolID,
      id <> protocolName sd -> service s' id = service s id).
Proof.
  intros H. repeat split.
  - now apply RegisterService_returns in H
      as [(-> & _ & _)|(m & _ & _ & _ & ->)].
  - now apply RegisterService_returns in H
      as [(-> & _ & _)|(m & _ & _ & _ & ->)].
  - intros id d Hd. rewrite <- Hd.
    apply (RegisterService_frame _ _ _ _ _ H). right. eauto.
  - intros id Hid. apply (RegisterService_frame _ _ _ _ _ H). now left.
Qed.

(** X9.  If every description in the registry sits under its own
    identifier, it is so after [RegisterService] too: a lookup of [id] never
    yields a description that names another service. *)
Theorem RegisterService_keeps_keyed (s s' : Server) (sd : ServiceDescription)
    (err : option error) :
  keyed s ->
  RegisterService s sd = Returns (s', err) ->
  keyed s'.
Proof.
  intros Hk [(-> & _ & _)|(m & Hs & Hm & _ & ->)]%RegisterService_returns;
    [exact Hk|].
  intros id d. unfold service. cbn.
  destruct (decide (id = protocolName sd)) as [->|Hne].
  - rewrite lookup_insert_eq. now intros [= <-].
  - rewrite lookup_insert_ne by congruence.
    intros Hd. apply Hk. unfold service. now rewrite Hs.
Qed.

(** X10.  Two descriptions with one identifier, registered one after the
    other on a map that was made and does not hold the identifier: the
    first call inserts, the second returns an error and changes nothing,
    and the identifier still resolves to the first description. *)
Theorem RegisterService_first_wins (s : Server) (sd1 sd2 : ServiceDescription)
    (m : gmap ProtocolID ServiceDescription) :
  services s = Some m ->
  m !! protocolName sd1 = None ->
  protocolName sd2 = protocolName sd1 ->
  exists s1 : Server,
    RegisterService s sd1 = Returns (s1, None) /\
    (exists err : error, RegisterService s1 sd2 = Returns (s1, Some err)) /\
    service s1 (protocolName sd1) = Some sd1.
Proof.
  intros Hs Hm Hid.
  exists (mkServer (protocolHandler s) (logger s)
            (Some (<[protocolName sd1 := sd1]> m))).
  assert (service (mkServer (protocolHandler s) (logger s)
                     (Some (<[protocolName sd1 := sd1]> m)))
            (protocolName sd1) = Some sd1) as Hfound.
  { unfold service. cbn. apply lookup_insert_eq. }
  split; [exact (RegisterService_fresh s sd1 m Hs Hm)|].
  split; [|exact Hfound].
  eexists. apply RegisterService_duplicate. rewrite Hid, Hfound. eauto.
Qed.

(** X11.  Descriptions with different identifiers can be registered in
    either order: both orders succeed and leave the same server. *)
Theorem RegisterService_commutes (s : Server) (sd1 sd2 : ServiceDescription)
    (m : gmap ProtocolID ServiceDescription) :
  services s = Some m ->
  m !! protocolName sd1 = None ->
  m !! protocolName sd2 = None ->
  protocolName sd1 <> protocolName sd2 ->
  exists s1 s2 s12 : Server,
    RegisterService s sd1 = Returns (s1, None) /\
    RegisterService s1 sd2 = Returns (s12, None) /\
    RegisterService s sd2 = Returns (s2, None) /\
    RegisterService s2 sd1 = Returns (s12, None).
Proof.
  intros Hs H1 H2 Hne.
  exists (mkServer (protocolHandler s) (logger s)
            (Some (<[protocolName sd1 := sd1]> m))),
    (mkServer (protocolHandler s) (logger s)
       (Some (<[protocolName sd2 := sd2]> m))),
    (mkServer (protocolHandler s) (logger s)
       (Some (<[protocolName sd2 := sd2]> (<[protocolName sd1 := sd1]> m)))).
  split; [exact (RegisterService_fresh s sd1 m Hs H1)|].
  split; [|split; [exact (RegisterService_fresh s sd2 m Hs H2)|]].
  - rewrite (RegisterService_fresh
               (mkServer (protocolHandler s) (logger s)
                  (Some (<[protocolName sd1 := sd1]> m)))
               sd2 (<[protocolName sd1 := sd1]> m) eq_refl);
      [reflexivity|now rewrite lookup_insert_ne].
  - rewrite (RegisterService_fresh
               (mkServer (protocolHandler s) (logger s)
                  (Some (<[protocolName sd2 := sd2]> m)))
               sd1 (<[protocolName sd2 := sd2]> m) eq_refl);
      [|rewrite lookup_insert_ne; congruence].
    cbn. now rewrite insert_insert_ne by congruence.
Qed.

(** X12.  Registering a service does not change the answer to a message
    for another service, nor to one for a service that was registered
    before, nor to one the codec cannot decode. *)
Theorem registration_keeps_answers (s s' : Server) (sd : ServiceDescription)
    (err : option error) (request : bytes) :
  RegisterService s sd = Returns (s', err) ->
  (forall srv me data,
      Decode (protocolHandler s) request = Ok (srv, me, data) ->
      srv <> protocolName sd \/ is_Some (service s srv)) ->
  answer s' request = answer s request.
Proof.
  intros H Hreq. unfold answer.
  assert (protocolHandler s' = protocolHandler s) as ->.
  { now apply RegisterService_returns in H
      as [(-> & _ & _)|(m & _ & _ & _ & ->)]. }
  destruct (Decode (protocolHandler s) request)
    as [[[srv me] data]|e] eqn:Hdec; [|reflexivity].
  now rewrite (RegisterService_frame _ _ _ _ srv H (Hreq _ _ _ eq_refl)).
Qed.

End RegistrationFacts.

(** ** The mock docker client *)

Section MockFacts.

Import Mock.

Ltac unfold_mock :=
  unfold invoke, ContainerStart, ContainerKill, ContainerExecCreate,
    ContainerCreate, ContainerRename, ContainerRemove, CreateMockImage,
    ImageInspectWithRaw, SetError, SetDockerOffline, SetIDNotExisting,
    produceError, IsRunning, put, set_running, set_containers, set_images,
    set_err in *.

Lemma get_put_same (m m' : boolmap) (k : string) (v : bool) :
  put m k v = Returns m' -> get m' k = v.
Proof.
  destruct m as [g|]; [|discriminate]. intros [= <-]. cbn.
  now rewrite lookup_insert_eq.
Qed.

Lemma get_put_other (m m' : boolmap) (k k' : string) (v : bool) :
  put m k v = Returns m' -> k' <> k -> get m' k' = get m k'.
Proof.
  destruct m as [g|]; [|discriminate]. intros [= <-] Hne. cbn.
  now rewrite lookup_insert_ne.
Qed.

Lemma invoke_made (c : call) (d : MockDCli) :
  made d ->
  exists d' e, invoke c d = Returns (d', e) /\ made d'.
Proof.
  destruct d as [[r|] [cs|] [i|] er idn off];
    intros (Hr & Hc & Hi); try (now destruct Hr); try (now destruct Hc);
    try (now destruct Hi).
  destruct c; unfold_mock; cbn; repeat case_match; simplify_eq/=;
    eexists _, _; (split; [reflexivity|]); unfold made; cbn; eauto.
Qed.

Lemma invoke_all_made (cs : list call) (d : MockDCli) :
  made d -> exists d', invoke_all cs d = Returns d' /\ made d'.
Proof.
  revert d. induction cs as [|c cs IH]; intros d Hd; [now exists d|].
  destruct (invoke_made c d Hd) as (d1 & e & Hc & Hd1).
  cbn. rewrite Hc. now apply IH.
Qed.

Lemma invoke_images (c : call) (d d' : MockDCli) (e : option error)
    (img : string) :
  invoke c d = Returns (d', e) ->
  get (images d) img = true -> get (images d') img = true.
Proof.
  destruct d as [r cs i er idn off].
  destruct c; unfold_mock; cbn; repeat case_match; simplify_eq/=;
    intros; simplify_eq/=; try assumption.
  destruct (decide (img = image)) as [->|Hne].
  - now rewrite lookup_insert_eq.
  - now rewrite lookup_insert_ne.
Qed.

Lemma invoke_switches (c : call) (d d' : MockDCli) (e : option error) :
  invoke c d = Returns (d', e) ->
  (idNotExist d = true -> idNotExist d' = true) /\
  (dockerIsOffline d = true -> dockerIsOffline d' = true).
Proof.
  destruct d as [r cs i er idn off].
  destruct c; unfold_mock; cbn; repeat case_match; simplify_eq/=;
    intros; simplify_eq/=; auto.
Qed.

Lemma invoke_offline (c : call) (d d' : MockDCli) (e : option error)
    (name : string) :
  dockerIsOffline d = true ->
  invoke c d = Returns (d', e) ->
  get (containers d) name = false -> get (containers d') name = false.
Proof.
  destruct d as [r cs i er idn off]. cbn. intros ->.
  destruct c; unfold_mock; cbn; repeat case_match; simplify_eq/=;
    intros; simplify_eq/=; try assumption;
    try (rewrite orb_true_r in *; discriminate).
  all: destruct (decide (name = containerID)) as [->|Hne];
    [now rewrite lookup_insert_eq|now rewrite lookup_insert_ne].
Qed.

(** X13.  No sequence of calls on the struct [NewMockDCli] returns panics,
    and the three maps stay made; on the zero value of the struct the calls
    that write a map panic. *)
Theorem NewMockDCli_never_panics (cs : list call) :
  (exists d', invoke_all cs NewMockDCli = Returns d' /\ made d') /\
  (forall container,
      ContainerStart zero container = Panics "assignment to entry in nil map") /\
  (forall image,
      CreateMockImage zero image = Panics "assignment to entry in nil map") /\
  (forall containerName,
      ContainerCreate zero containerName
      = Panics "assignment to entry in nil map").
Proof.
  split; [|repeat split].
  apply invoke_all_made. unfold made, NewMockDCli; cbn. eauto.
Qed.

(** X14.  With the error flag set, the next call of one of the six
    container methods returns [ErrClientError], clears the flag and does
    nothing else; [ImageInspectWithRaw], [CreateMockImage] and the setters
    leave the flag set. *)
Theorem injected_error_is_one_shot (c : call) (d : MockDCli) :
  err d = true ->
  (consults_error c = true ->
   invoke c d = Returns (set_err d false, Some ErrClientError)) /\
  (consults_error c = false ->
   forall d' e, invoke c d = Returns (d', e) -> err d' = true).
Proof.
  destruct d as [r cs i er idn off]. cbn. intros ->. split.
  - destruct c; try discriminate; intros _; reflexivity.
  - destruct c; try discriminate; intros _ d' e; unfold_mock; cbn;
      repeat case_match; intros; simplify_eq/=; reflexivity.
Qed.

(** X15.  A container that is not running can be started; started again
    it gives [ErrAlreadyRunning] and nothing changes; it can then be killed
    once, and a second kill gives [ErrClientError].  Whether the container
    was ever created plays no part, and no other container is touched. *)
Theorem start_kill_lifecycle (d : MockDCli) (container : string)
    (m : gmap string bool) :
  running d = Some m ->
  err d = false ->
  IsRunning d container = false ->
  exists d1 d2 : MockDCli,
    ContainerStart d container = Returns (d1, None) /\
    IsRunning d1 container = true /\
    ContainerStart d1 container = Returns (d1, Some ErrAlreadyRunning) /\
    ContainerKill d1 container = Returns (d2, None) /\
    IsRunning d2 container = false /\
    ContainerKill d2 container = Returns (d2, Some ErrClientError) /\
    forall other, other <> container -> IsRunning d2 other = IsRunning d other.
Proof.
  destruct d as [r cs i er idn off]. cbn. intros -> -> Hc.
  unfold IsRunning in Hc. cbn in Hc.
  exists (mkMockDCli (Some (<[container := true]> m)) cs i false idn off),
    (mkMockDCli (Some (<[container := false]> (<[container := true]> m)))
       cs i false idn off).
  unfold_mock. cbn. rewrite Hc, !lookup_insert_eq. cbn.
  repeat (split; [reflexivity|]).
  intros other Hne. now rewrite !lookup_insert_ne.
Qed.

(** X16.  A container that was created can be removed once; a second
    removal gives [ErrClientError].  Removal stops nothing: the running map
    is as it was, and the other containers are as they were. *)
Theorem create_remove_lifecycle (d : MockDCli) (name : string)
    (m : gmap string bool) :
  containers d = Some m ->
  err d = false ->
  dockerIsOffline d = false ->
  exists d1 d2 : MockDCli,
    ContainerCreate d name = Returns (d1, (name, None)) /\
    ContainerRemove d1 name = Returns (d2, None) /\
    ContainerRemove d2 name = Returns (d2, Some ErrClientError) /\
    running d2 = running d /\
    forall other, other <> name ->
      get (containers d2) other = get (containers d) other.
Proof.
  destruct d as [r cs i er idn off]. cbn. intros -> -> ->.
  exists (mkMockDCli r (Some (<[name := true]> m)) i false idn false),
    (mkMockDCli r (Some (<[name := false]> (<[name := true]> m)))
       i false idn false).
  unfold_mock. cbn. rewrite !lookup_insert_eq. cbn.
  repeat (split; [reflexivity|]).
  intros other Hne. now rewrite !lookup_insert_ne.
Qed.

(** X17.  A rename that succeeds leaves the three maps as they were: the
    container is still known under its old name, and a new name that was
    not known before is not known after, so removing it fails. *)
Theorem rename_renames_nothing (d d' : MockDCli)
    (containerID newContainerName : string) :
  ContainerRename d containerID newContainerName = (d', None) ->
  running d' = running d /\ containers d' = containers d /\
  images d' = images d /\
  get (containers d') containerID = true /\
  get (containers d') newContainerName = get (containers d) newContainerName /\
  (get (containers d) newContainerName = false ->
   ContainerRemove d' newContainerName = Returns (d', Some ErrClientError)).
Proof.
  destruct d as [r cs i [] idn off]; unfold_mock; cbn; [discriminate|].
  destruct (get cs containerID) eqn:Hid; [|discriminate].
  destruct idn; [discriminate|]. cbn. intros [= <-]. cbn.
  repeat (split; [reflexivity || assumption|]).
  now intros ->.
Qed.

(** X18.  No method clears [idNotExist] or [dockerIsOffline]: after any
    sequence of calls a struct that had [idNotExist] set fails every
    rename, and one that was offline is offline still, with no container
    known that was not known before. *)
Theorem switches_are_permanent (cs : list call) (d d' : MockDCli) :
  invoke_all cs d = Returns d' ->
  (idNotExist d = true ->
   idNotExist d' = true /\
   forall containerID newName,
     snd (ContainerRename d' containerID newName) = Some ErrClientError) /\
  (dockerIsOffline d = true ->
   dockerIsOffline d' = true /\
   (forall name, get (containers d) name = false ->
                 get (containers d') name = false)).
Proof.
  revert d. induction cs as [|c cs IH]; intros d; cbn.
  - intros [= ->]. split.
    + intros Hid. split; [exact Hid|]. intros id new.
      destruct d' as [r cs i [] idn off]; cbn in *; subst; unfold_mock; cbn;
        [reflexivity|]. now rewrite orb_true_r.
    + intros Hoff. split; [exact Hoff|]. auto.
  - destruct (invoke c d) as [[d1 e]|] eqn:Hc; [|discriminate].
    intros H. destruct (IH _ H) as [IHid IHoff].
    destruct (invoke_switches _ _ _ _ Hc) as [Hid Hoff]. split.
    + intros Hd. apply IHid, Hid, Hd.
    + intros Hd. destruct (IHoff (Hoff Hd)) as [Hoff' Hcont].
      split; [exact Hoff'|]. intros name Hn.
      apply Hcont. exact (invoke_offline _ _ _ _ name Hd Hc Hn).
Qed.

(** X19.  An image, once created, is found by [ImageInspectWithRaw] after
    any sequence of calls, error flag or not. *)
Theorem images_are_never_lost (d d1 d2 : MockDCli) (image : string)
    (cs : list call) :
  CreateMockImage d image = Returns d1 ->
  invoke_all cs d1 = Returns d2 ->
  ImageInspectWithRaw d2 image = None /\
  IsErrImageNotFound d2 (ImageInspectWithRaw d2 image) = false.
Proof.
  intros Hcreate Hcs.
  assert (get (images d1) image = true) as H1.
  { unfold CreateMockImage in Hcreate.
    destruct (put (images d) image true) as [m|] eqn:Hput; [|discriminate].
    injection Hcreate as <-. cbn. exact (get_put_same _ _ _ _ Hput). }
  assert (get (images d2) image = true) as H2.
  { clear Hcreate. revert d1 Hcs H1.
    induction cs as [|c cs IH]; intros d1; cbn.
    - now intros [= ->].
    - destruct (invoke c d1) as [[d1' e]|] eqn:Hc; [|discriminate].
      intros Hcs H1. apply (IH _ Hcs). exact (invoke_images _ _ _ _ _ Hc H1). }
  unfold ImageInspectWithRaw. now rewrite H2.
Qed.

End MockFacts.

(** ** The scenario, run *)

Import Scenario.

(** The spec's scenario, by evaluation: a ping is answered with its
    encoding; a message for a service that is not registered is answered
    with the error text and the connection stays open; the ping is then
    answered again; the peer hangs up and the session closes. *)
Example ping_unknown_ping :
  option_map (fun r => trace (fst r))
    (result_within 100
       (session (connection (message svc echo_method ping
                             :: message other_svc echo_method ping
                             :: message svc echo_method ping :: nil) nil)))
  = Some (Read (Ok (1, message svc echo_method ping))
          :: Decoded (message svc echo_method ping)
          :: Invoked echo ping
          :: Encoded svc echo_method ping
          :: Wrote 1 (message svc echo_method ping) None
          :: Read (Ok (1, message other_svc echo_method ping))
          :: Decoded (message other_svc echo_method ping)
          :: Wrote 1 (raw UnknownServiceError) None
          :: Read (Ok (1, message svc echo_method ping))
          :: Decoded (message svc echo_method ping)
          :: Invoked echo ping
          :: Encoded svc echo_method ping
          :: Wrote 1 (message svc echo_method ping) None
          :: Read (Err io_EOF)
          :: Closed :: nil).
Proof. vm_compute. reflexivity. Qed.

(** Registration on a server whose map was made: the first call inserts,
    the second is refused and changes nothing. *)
Lemma register_twice_witness :
  RegisterService fresh description = Returns (registered, None) /\
  exists err : error,
    RegisterService registered description = Returns (registered, Some err).
Proof.
  split.
  - apply (proj2 (RegisterService_on_made_map fresh description ∅ eq_refl)).
    reflexivity.
  - apply (proj1 (RegisterService_on_made_map registered description
                    (<[svc := description]> ∅) eq_refl)).
    exists description. reflexivity.
Defined.

(** The transport refuses the answer to a ping; a second ping is waiting
    and stays unread. *)
Lemma write_failure_witness :
  exists (calls : list Call) (payload : bytes),
    Forall (fun c => on_transport c = false) calls /\
    is_reply registered payload /\
    session (connection (message svc echo_method ping
                         :: message svc echo_method ping :: nil)
               (Some (mkError "broken pipe") :: nil))
    ≈ Ret ({| server := registered;
              incoming := Ok (1, message svc echo_method ping) :: nil;
              faults := nil;
              trace := Read (Ok (1, message svc echo_method ping)) :: calls
                       ++ Wrote 1 payload (Some (mkError "broken pipe"))
                       :: Logged tt (mkError "broken pipe") :: Closed :: nil |},
           tt).
Proof.
  apply (write_failure_closes_session
           (connection (message svc echo_method ping
                        :: message svc echo_method ping :: nil)
              (Some (mkError "broken pipe") :: nil))
           1 (message svc echo_method ping)
           (Ok (1, message svc echo_method ping) :: nil)
           (mkError "broken pipe"));
    reflexivity.
Defined.

Lemma message_type_witness :
  exists (w' : World) (ctl : unit + unit) (calls : list Call),
    run iteration (connection (message svc echo_method ping :: nil) nil)
    ≈ Ret (w', ctl) /\
    trace w' = Read (Ok (1, message svc echo_method ping)) :: calls /\
    (exists data err, Wrote 1 data err ∈ calls) /\
    forall messageType' data err,
      Wrote messageType' data err ∈ calls -> messageType' = 1.
Proof.
  apply (responses_keep_message_type
           (connection (message svc echo_method ping :: nil) nil)
           1 (message svc echo_method ping) nil);
    reflexivity.
Defined.


(** ** More of the scenario, run *)

Import Fixtures.

Lemma read_failure_witness :
  session (connection nil nil)
  ≈ Ret ({| server := registered; incoming := nil; faults := nil;
            trace := Read (Err io_EOF) :: Closed :: nil |}, tt).
Proof.
  apply (read_failure_is_silent (connection nil nil) io_EOF). reflexivity.
Defined.

Lemma keeps_registrations_witness :
  protocolHandler both = protocolHandler registered /\
  logger both = logger registered /\
  (forall (id : ProtocolID) (d : ServiceDescription),
      service registered id = Some d -> service both id = Some d) /\
  (forall id : ProtocolID,
      id <> protocolName other_description ->
      service both id = service registered id).
Proof.
  apply (RegisterService_keeps_registrations registered both
           other_description None).
  reflexivity.
Defined.

Lemma keeps_keyed_witness : keyed registered.
Proof.
  apply (RegisterService_keeps_keyed fresh registered description None).
  - intros id sd H. unfold service in H. cbn in H.
    rewrite lookup_empty in H. discriminate H.
  - reflexivity.
Defined.

Lemma first_wins_witness :
  exists s1 : Server,
    RegisterService fresh description = Returns (s1, None) /\
    (exists err : error, RegisterService s1 impostor = Returns (s1, Some err)) /\
    service s1 (protocolName description) = Some description.
Proof.
  apply (RegisterService_first_wins fresh description impostor ∅);
    reflexivity.
Defined.

Lemma commutes_witness :
  exists s1 s2 s12 : Server,
    RegisterService fresh description = Returns (s1, None) /\
    RegisterService s1 other_description = Returns (s12, None) /\
    RegisterService fresh other_description = Returns (s2, None) /\
    RegisterService s2 description = Returns (s12, None).
Proof.
  apply (RegisterService_commutes fresh description other_description ∅);
    [reflexivity | reflexivity | reflexivity | discriminate].
Defined.

Lemma keeps_answers_witness :
  answer both (message svc echo_method ping)
  = answer registered (message svc echo_method ping).
Proof.
  apply (registration_keeps_answers registered both other_description None).
  - reflexivity.
  - intros srv me data [= <- _ _]. left. discriminate.
Defined.

Lemma injected_error_witness :
  (Mock.consults_error (Mock.CallContainerStart "web") = true ->
   Mock.invoke (Mock.CallContainerStart "web") (Mock.SetError Mock.NewMockDCli)
   = Returns (Mock.set_err (Mock.SetError Mock.NewMockDCli) false,
              Some Mock.ErrClientError)) /\
  (Mock.consults_error (Mock.CallContainerStart "web") = false ->
   forall d' e,
     Mock.invoke (Mock.CallContainerStart "web")
       (Mock.SetError Mock.NewMockDCli) = Returns (d', e) ->
     Mock.err d' = true).
Proof.
  apply (injected_error_is_one_shot (Mock.CallContainerStart "web")
           (Mock.SetError Mock.NewMockDCli)).
  reflexivity.
Defined.

Lemma start_kill_witness :
  exists d1 d2 : Mock.MockDCli,
    Mock.ContainerStart Mock.NewMockDCli "web" = Returns (d1, None) /\
    Mock.IsRunning d1 "web" = true /\
    Mock.ContainerStart d1 "web" = Returns (d1, Some Mock.ErrAlreadyRunning) /\
    Mock.ContainerKill d1 "web" = Returns (d2, None) /\
    Mock.IsRunning d2 "web" = false /\
    Mock.ContainerKill d2 "web" = Returns (d2, Some Mock.ErrClientError) /\
    forall other : string,
      other <> "web"%string ->
      Mock.IsRunning d2 other = Mock.IsRunning Mock.NewMockDCli other.
Proof.
  apply (start_kill_lifecycle Mock.NewMockDCli "web" ∅); reflexivity.
Defined.

Lemma create_remove_witness :
  exists d1 d2 : Mock.MockDCli,
    Mock.ContainerCreate Mock.NewMockDCli "web"
    = Returns (d1, ("web"%string, None)) /\
    Mock.ContainerRemove d1 "web" = Returns (d2, None) /\
    Mock.ContainerRemove d2 "web" = Returns (d2, Some Mock.ErrClientError) /\
    Mock.running d2 = Mock.running Mock.NewMockDCli /\
    forall other : string,
      other <> "web"%string ->
      Mock.get (Mock.containers d2) other
      = Mock.get (Mock.containers Mock.NewMockDCli) other.
Proof.
  apply (create_remove_lifecycle Mock.NewMockDCli "web" ∅); reflexivity.
Defined.

Lemma rename_witness :
  Mock.running with_web = Mock.running with_web /\
  Mock.containers with_web = Mock.containers with_web /\
  Mock.images with_web = Mock.images with_web /\
  Mock.get (Mock.containers with_web) "web" = true /\
  Mock.get (Mock.containers with_web) "api"
  = Mock.get (Mock.containers with_web) "api" /\
  (Mock.get (Mock.containers with_web) "api" = false ->
   Mock.ContainerRemove with_web "api"
   = Returns (with_web, Some Mock.ErrClientError)).
Proof.
  apply (rename_renames_nothing with_web with_web "web" "api"). reflexivity.
Defined.

Lemma switches_witness :
  (Mock.idNotExist switched_off = true /\
   forall containerID newName : string,
     snd (Mock.ContainerRename switched_off containerID newName)
     = Some Mock.ErrClientError) /\
  (Mock.dockerIsOffline switched_off = true /\
   forall name : string,
     Mock.get (Mock.containers switched_off) name = false ->
     Mock.get (Mock.containers switched_off) name = false).
Proof.
  destruct (switches_are_permanent
              (Mock.CallContainerCreate "web"
               :: Mock.CallContainerRename "web" "api" :: nil)
              switched_off switched_off eq_refl)
    as [Hid Hoff].
  split; [apply Hid|apply Hoff]; reflexivity.
Defined.

Lemma images_witness :
  Mock.ImageInspectWithRaw
    (Mock.mkMockDCli (Some ∅) (Some ∅) (Some (<["nginx"%string := true]> ∅))
       false false false) "nginx" = None /\
  Mock.IsErrImageNotFound
    (Mock.mkMockDCli (Some ∅) (Some ∅) (Some (<["nginx"%string := true]> ∅))
       false false false)
    (Mock.ImageInspectWithRaw
       (Mock.mkMockDCli (Some ∅) (Some ∅)
          (Some (<["nginx"%string := true]> ∅)) false false false) "nginx")
  = false.
Proof.
  apply (images_are_never_lost Mock.NewMockDCli
           (Mock.mkMockDCli (Some ∅) (Some ∅)
              (Some (<["nginx"%string := true]> ∅)) false false false)
           (Mock.mkMockDCli (Some ∅) (Some ∅)
              (Some (<["nginx"%string := true]> ∅)) false false false)
           "nginx"
           (Mock.CallSetError :: Mock.CallContainerStart "web"
            :: Mock.CallImageInspectWithRaw "nginx" :: nil));
    reflexivity.
Defined.

(** ** The passes of the scenario *)


(** The echo handler and a message that decodes to the payload "ping": one
    frame is written, the encoding of "ping". *)
Lemma registered_handler_witness :
  (exists (w' : World) (ctl : unit + unit) (calls : list Call),
      run iteration (connection (message svc echo_method ping :: nil) nil)
      ≈ Ret (w', ctl) /\
      trace w' = Read (Ok (1, message svc echo_method ping))
                 :: Decoded (message svc echo_method ping)
                 :: Invoked echo ping :: calls /\
      forall h d, Invoked h d ∉ calls) /\
  run iteration (connection (message svc echo_method ping :: nil) nil)
  ≈ Ret (left_with nil
           (Read (Ok (1, message svc echo_method ping))
            :: Decoded (message svc echo_method ping)
            :: Invoked echo ping
            :: Encoded svc echo_method ping
            :: Wrote 1 (id_bytes svc ++ id_bytes echo_method ++ ping) None
            :: nil), continue) /\
  session (connection (message svc echo_method ping :: nil) nil)
  ≈ session (left_with nil
               (Read (Ok (1, message svc echo_method ping))
                :: Decoded (message svc echo_method ping)
                :: Invoked echo ping
                :: Encoded svc echo_method ping
                :: Wrote 1 (id_bytes svc ++ id_bytes echo_method ++ ping) None
                :: nil)).
Proof.
  destruct (registered_handler_is_invoked
              (connection (message svc echo_method ping :: nil) nil)
              1 (message svc echo_method ping) nil
              svc echo_method ping description echo
              eq_refl eq_refl eq_refl eq_refl)
    as [Hcall Hanswer].
  split; [exact Hcall|].
  apply (Hanswer ping (id_bytes svc ++ id_bytes echo_method ++ ping));
    reflexivity.
Defined.




(** Registration, run on the struct the scenario's sessions share, writes
    the services map. *)
Example registration_writes_registry :
  run (RegisterService_call other_description) (connection nil nil)
  ≈ Ret ({| server := both; incoming := nil; faults := nil; trace := nil |},
         Returns None).
Proof. rewrite RegisterService_call_run. reflexivity. Qed.
